(** * Boundary assembly of [src/overpass/request.py]

    A shallow embedding of the segment-stitching loop of
    [get_area_bounding_points_check_orderCM]: the relation members returned by
    the Overpass query are split into ways, nodes and other members, and the
    ways are stitched, in member order, into a main ring, a list of exclave
    rings and a list of ignored vertices.

    Coordinates are kept abstract: a type [C] with decidable equality, since
    the source compares vertices (Python lists [[lon, lat]]) with [==] and
    [in], i.e. by exact value.  The concrete examples instantiate [C] with [Z].
    Python exceptions are the constructors of [exn]; a computation that may
    raise is a value of [exn + A]. *)

From stdpp Require Import base list decidable sets strings pretty.
From Stdlib Require Import ZArith Ascii.

Module Overpass.

(** A geometry point of the JSON response: [{"lat": .., "lon": ..}]. *)
Record point (C : Type) := mk_point { lat : C; lon : C }.
Arguments mk_point {C} _ _.
Arguments lat {C} _.
Arguments lon {C} _.

(** A relation member, tagged by its ["type"] field: a way carries its
    ["geometry"], a node its own ["lat"]/["lon"]; any other type (e.g. a
    nested ["relation"]) is kept with its ["ref"] and never processed. *)
Inductive member (C : Type) :=
  | MWay (geometry : list (point C))
  | MNode (p : point C)
  | MOther (ref : nat).
Arguments MWay {C} _.
Arguments MNode {C} _.
Arguments MOther {C} _.

(** One element of [data["elements"]]: its ["bounds"] and ["members"]. *)
Record element (C B : Type) := mk_element { bounds : B; members : list (member C) }.
Arguments mk_element {C B} _ _.
Arguments bounds {C B} _.
Arguments members {C B} _.

(** The exceptions the function can raise: [IndexError] for [l[0]], [l[-1]]
    on an empty list and for [members_ways[i+1]] past the end;
    [NotConsecutive] for [raise Exception("Points not consecutive, check!")];
    [AssertionError] for the [assert len(data["elements"]) == 1]. *)
Inductive exn := IndexError | NotConsecutive | AssertionError.

Definition result (A : Type) : Type := (exn + A)%type.
Definition ret {A} (a : A) : result A := inr a.
Definition throw {A} (e : exn) : result A := inl e.
Definition bind {A B} (m : result A) (k : A -> result B) : result B :=
  match m with inl e => inl e | inr a => k a end.
Notation "'let!' x := m 'in' k" := (bind m (fun x => k))
  (at level 200, x name, m at level 100, k at level 200).

Section Assemble.
Context {C : Type} `{EqDecision C}.

(** A vertex is the Python list [[p["lon"], p["lat"]]]. *)
Definition vertex : Type := (C * C)%type.
Definition to_vertex (p : point C) : vertex := (lon p, lat p).

(** [curr_segm = [[p["lon"], p["lat"]] for p in m["geometry"]]] *)
Definition segm (g : list (point C)) : list vertex := map to_vertex g.

(** Python's [x in l] on lists compared by value. *)
Definition inb (x : vertex) (l : list vertex) : bool := bool_decide (x ∈ l).

Fixpoint last_opt {A} (l : list A) : option A :=
  match l with
  | [] => None
  | [x] => Some x
  | _ :: l' => last_opt l'
  end.

(** [l[0]] and [l[-1]]. *)
Definition py_first {A} (l : list A) : result A :=
  match l with [] => throw IndexError | x :: _ => ret x end.
Definition py_last {A} (l : list A) : result A :=
  match last_opt l with None => throw IndexError | Some x => ret x end.

(** [exclaves[-1].extend(s)] *)
Fixpoint extend_last (ex : list (list vertex)) (s : list vertex) : list (list vertex) :=
  match ex with
  | [] => []
  | [e] => [e ++ s]
  | e :: ex' => e :: extend_last ex' s
  end.

(** The local variables [points], [exclaves] and [ignored] of the loop. *)
Record st := mk_st {
  points : list vertex;
  exclaves : list (list vertex);
  ignored : list vertex
}.

Definition init_st : st := mk_st [] [] [].

Definition set_points (s : st) (p : list vertex) : st := mk_st p (exclaves s) (ignored s).
Definition set_exclaves (s : st) (e : list (list vertex)) : st := mk_st (points s) e (ignored s).
Definition set_ignored (s : st) (i : list vertex) : st := mk_st (points s) (exclaves s) i.

(** Lines 181-212: a segment with no endpoint in [points]. *)
Definition step_isolated (ign : bool) (s : st) (curr : list vertex)
    (first last : vertex) : result st :=
  if ign && (inb first (ignored s) || inb last (ignored s)) then
    ret (set_ignored s (ignored s ++ curr))
  else
    match last_opt (exclaves s) with
    | Some last_exclave =>
        let f_ine := inb first last_exclave in
        let l_ine := inb last last_exclave in
        if f_ine && l_ine then
          if bool_decide (Some first = last_opt last_exclave) then
            ret (set_exclaves s (extend_last (exclaves s) curr))
          else if bool_decide (Some last = last_opt last_exclave) then
            ret (set_exclaves s (extend_last (exclaves s) (rev curr)))
          else throw NotConsecutive
        else if f_ine then ret (set_exclaves s (extend_last (exclaves s) curr))
        else if l_ine then ret (set_exclaves s (extend_last (exclaves s) (rev curr)))
        else ret (set_exclaves s (exclaves s ++ [curr]))
    | None => ret (set_exclaves s (exclaves s ++ [curr]))
    end.

(** Lines 153-212: [points] is non-empty. *)
Definition step_main (ign : bool) (s : st) (curr : list vertex) : result st :=
  let! first := py_first curr in
  let! tl := py_last (points s) in
  let f_inp := inb first (points s) in
  let f_iprev := bool_decide (first = tl) in
  let! last := py_last curr in
  let l_inp := inb last (points s) in
  let l_iprev := bool_decide (last = tl) in
  if f_inp && l_inp then
    if bool_decide (first = tl) then ret (set_points s (points s ++ curr))
    else if bool_decide (last = tl) then ret (set_points s (points s ++ rev curr))
    else throw NotConsecutive
  else if f_inp then
    if ign && negb f_iprev then ret (set_ignored s (ignored s ++ curr))
    else ret (set_points s (points s ++ curr))
  else if l_inp then
    if ign && negb l_iprev then ret (set_ignored s (ignored s ++ curr))
    else ret (set_points s (points s ++ rev curr))
  else step_isolated ign s curr first last.

(** Lines 213-240: [points] is empty; the orientation is decided by looking
    ahead at [members_ways[i+1]] ([next], [None] past the end). *)
Definition step_boot (s : st) (g : list (point C)) (next : option (list (point C)))
    : result st :=
  let curr := segm g in
  let! first := py_first curr in
  let! last := py_last curr in
  let! next_segm := match next with
               | Some ng => ret (segm ng)
               | None => throw IndexError
               end in
  if inb last next_segm then ret (set_points s (points s ++ curr))
  else if inb first next_segm then ret (set_points s (points s ++ rev curr))
  else ret (set_exclaves s (exclaves s ++ [curr])).

(** The body of [for i, m in enumerate(members_ways[:])]. *)
Definition step (ign : bool) (s : st) (g : list (point C))
    (next : option (list (point C))) : result st :=
  match points s with
  | _ :: _ => step_main ign s (segm g)
  | [] => step_boot s g next
  end.

(** The loop over the remaining ways; [members_ways[i+1]] is the head of the
    rest of the list. *)
Fixpoint loop (ign : bool) (ws : list (list (point C))) (s : st) : result st :=
  match ws with
  | [] => ret s
  | g :: rest => let! s' := step ign s g (head rest) in loop ign rest s'
  end.

(** [members_ways = [m for m in members if m["type"] == "way"]] *)
Fixpoint members_ways (ms : list (member C)) : list (list (point C)) :=
  match ms with
  | [] => []
  | MWay g :: ms' => g :: members_ways ms'
  | _ :: ms' => members_ways ms'
  end.

(** [nodes = [[m["lon"], m["lat"]] for m in members_nodes]] *)
Fixpoint node_points (ms : list (member C)) : list vertex :=
  match ms with
  | [] => []
  | MNode p :: ms' => to_vertex p :: node_points ms'
  | _ :: ms' => node_points ms'
  end.

(** Lines 128-242, from the member list on: returns
    [(points, exclaves, nodes, bounds)]. *)
Definition assemble {B} (bnds : B) (ms : list (member C)) (ign : bool)
    : result (list vertex * list (list vertex) * list vertex * B) :=
  let nodes := node_points ms in
  let! s := loop ign (members_ways ms) init_st in
  ret (points s, exclaves s, nodes, bnds).

(** Lines 125-242, from the decoded response [data["elements"]] on. *)
Definition get_area_bounding_points {B} (elements : list (element C B)) (ign : bool)
    : result (list vertex * list (list vertex) * list vertex * B) :=
  let! e0 := py_first elements in
  let bnds := bounds e0 in
  if bool_decide (length elements = 1) then assemble bnds (members e0) ign
  else throw AssertionError.

(** A vertex is placed when it is in the main ring, in some exclave ring or
    among the ignored vertices. *)
Definition placed (s : st) (v : vertex) : Prop :=
  v ∈ points s \/ (exists e, e ∈ exclaves s /\ v ∈ e) \/ v ∈ ignored s.

End Assemble.

(** ** Concrete inputs, with integer coordinates *)

(** A JSON point written longitude first, as the output vertices are. *)
Definition pt (x y : Z) : point Z := mk_point y x.

(** The segments of the spec's examples, as way members. *)
Definition way_A : list (point Z) := [pt 0 0; pt 1 0; pt 1 1].
Definition way_B : list (point Z) := [pt 1 1; pt 0 1; pt 0 0].

(** A state whose main ring is [way_A]. *)
Definition st_A : @st Z := mk_st (segm way_A) [] [].

(** The state after stitching [way_A] and [way_B]. *)
Definition st_AB : @st Z :=
  mk_st [(0,0); (1,0); (1,1); (1,1); (0,1); (0,0)]%Z [] [].

(** A way touching [way_A] only at its interior vertex [(1,0)]. *)
Definition way_spur : list (point Z) := [pt 1 0; pt 7 7].

(** A way whose endpoints are interior vertices of [way_A]'s ring. *)
Definition way_chord : list (point Z) := [pt 0 0; pt 5 5; pt 1 0].

(** A way far from [way_A], and a way continuing it. *)
Definition way_far : list (point Z) := [pt 5 5; pt 6 5].
Definition way_far2 : list (point Z) := [pt 6 5; pt 6 6].

(** Three ways where the third touches the ring of the first two at the
    interior vertex [(1,0)]. *)
Definition way_P : list (point Z) := [pt 0 0; pt 1 0; pt 2 0].
Definition way_Q : list (point Z) := [pt 2 0; pt 3 0].
Definition way_R : list (point Z) := [pt 1 0; pt 5 5].

(** ** Python exceptions of the rest of the code *)

(** The exceptions the query builder, the download and the conversions can
    raise; [PyHTTPError] and [PyOtherError] carry what [urlopen] raised. *)
Inductive py_exn :=
  | PyIndexError | PyKeyError | PyTypeError | PyValueError
  | PyAssertionError | PyUnboundLocalError | PyWarning
  | PyHTTPError (code : nat) | PyOtherError (code : nat).

Definition pyresult (A : Type) : Type := (py_exn + A)%type.
Definition pyret {A} (a : A) : pyresult A := inr a.
Definition pythrow {A} (e : py_exn) : pyresult A := inl e.
Definition pybind {A B} (m : pyresult A) (k : A -> pyresult B) : pyresult B :=
  match m with inl e => inl e | inr a => k a end.
Notation "'let?' x := m 'in' k" := (pybind m (fun x => k))
  (at level 200, x name, m at level 100, k at level 200).

(** [[f(x) for x in xs]] for an [f] that may raise: the first exception
    aborts the comprehension. *)
Fixpoint py_map {A B} (f : A -> pyresult B) (xs : list A) : pyresult (list B) :=
  match xs with
  | [] => pyret []
  | x :: xs' => let? y := f x in let? ys := py_map f xs' in pyret (y :: ys)
  end.

(** Python's [l[i]] for a non-negative index. *)
Definition py_index {A} (l : list A) (i : nat) : pyresult A :=
  match l !! i with Some x => pyret x | None => pythrow PyIndexError end.

(** ** The query builder [OverpassRequest] (lines 12-113) *)

(** The double quote character. *)
Definition dq : string := String "034"%char EmptyString.

(** ["".join(xs)] and [sep.join(xs)]. *)
Definition py_concat (xs : list string) : string := String.concat "" xs.
Definition py_join (sep : string) (xs : list string) : string := String.concat sep xs.

(** An entry of [self.expressions]: [add_expression] appends what it is given,
    a string or a (nested) list of such. *)
#[warnings="-register-all"]
Inductive expr := EStr (s : string) | EList (es : list expr).

(** The attributes of an [OverpassRequest]; [query] is only set by
    [compose_query]. *)
Record request := mk_request {
  base_url : string;
  format_expr : string;
  expressions : list expr;
  out_expr : string;
  geojson : bool;
  query : option string
}.

Definition default_base_url : string := "https://overpass-api.de/api/interpreter?data=".

(** [__init__]: [format_expression or ""] and the like, an absent argument
    being [None]. *)
Definition new_request (base_url : string) (format_expression : option string)
    (exprs : option (list expr)) (out_expression : option string) (geojson : bool)
    : request :=
  mk_request base_url (default "" format_expression) (default [] exprs)
    (default "" out_expression) geojson None.

Definition default_request : request := new_request default_base_url None None None false.

Definition set_format (r : request) (f : string) : request :=
  mk_request (base_url r) f (expressions r) (out_expr r) (geojson r) (query r).

Definition set_json_format (r : request) : request := set_format r "[out:json];".

(** [set_csv_format]: [str(header).lower()] of a boolean [header]. *)
Definition set_csv_format (r : request) (columns : list string) (header : bool)
    (sep : string) : request :=
  let cols := py_join "," columns in
  let hdr := if header then "true" else "false" in
  set_format r ("[out:csv(" +:+ cols +:+ ";" +:+ hdr +:+ ";" +:+ dq +:+ sep +:+ dq +:+ ")];").

Definition set_expressions (r : request) (es : list expr) : request :=
  mk_request (base_url r) (format_expr r) es (out_expr r) (geojson r) (query r).

(** [add_expression]: a list has each of its entries added first, and is then
    appended itself, since the final [append] is not in an [else]. *)
Fixpoint add_expr (es : list expr) (e : expr) {struct e} : list expr :=
  match e with
  | EStr _ => es ++ [e]
  | EList l =>
      (fix add_all (es : list expr) (l : list expr) : list expr :=
         match l with [] => es | x :: l' => add_all (add_expr es x) l' end) es l
      ++ [e]
  end.

Definition add_expression (r : request) (e : expr) : request :=
  set_expressions r (add_expr (expressions r) e).

(** A spatial filter: a bounding box [[[lat_min, lon_min], [lat_max, lon_max]]]
    of numbers, or a string. *)
Inductive spatial (R : Type) := SBox (bbox : list (list R)) | SText (s : string).
Arguments SBox {R} _.
Arguments SText {R} _.

(** [bbox2filt], [pystr] being Python's [str] on the numbers. *)
Definition bbox2filt {R} (pystr : R -> string) (bbox : list (list R)) : pyresult string :=
  let? b0 := py_index bbox 0 in
  let? b00 := py_index b0 0 in
  let? b01 := py_index b0 1 in
  let? b1 := py_index bbox 1 in
  let? b10 := py_index b1 0 in
  let? b11 := py_index b1 1 in
  pyret (pystr b00 +:+ "," +:+ pystr b01 +:+ "," +:+ pystr b10 +:+ "," +:+ pystr b11).

Definition build_expression {R} (pystr : R -> string) (r : request) (type : string)
    (semantic_filters : list string) (spatial_filters : list (spatial R)) : pyresult request :=
  let? spat_filts := py_map (fun f => match f with
                                      | SBox b => bbox2filt pystr b
                                      | SText s => pyret s
                                      end) spatial_filters in
  let sem := py_concat (map (fun f => "[" +:+ f +:+ "]") semantic_filters) in
  let spat := py_concat (map (fun f => "(" +:+ f +:+ ")") spat_filts) in
  pyret (set_expressions r (expressions r ++ [EStr (type +:+ sem +:+ spat +:+ ";")])).

Definition set_conversion (r : request) (convert : bool) : request :=
  mk_request (base_url r) (format_expr r) (expressions r) (out_expr r) convert (query r).

Definition set_output (r : request) (o : string) : request :=
  mk_request (base_url r) (format_expr r) (expressions r) o (geojson r) (query r).

Definition geojson_convert : string := "convert item ::=::,::geom=geom(),_osm_type=type();".

(** [for expr in self.expressions: self.query += expr]: adding a list to a
    string raises a [TypeError]. *)
Fixpoint append_exprs (q : string) (es : list expr) : pyresult string :=
  match es with
  | [] => pyret q
  | EStr s :: es' => append_exprs (q +:+ s) es'
  | EList _ :: _ => pythrow PyTypeError
  end.

(** [compose_query]: returns the request with [self.query] set, and the query. *)
Definition compose_query (r : request) : pyresult (request * string) :=
  if bool_decide (0 < length (expressions r)) then
    let? q := append_exprs (format_expr r) (expressions r) in
    let q := if geojson r then q +:+ geojson_convert else q in
    let q := q +:+ out_expr r in
    pyret (mk_request (base_url r) (format_expr r) (expressions r) (out_expr r)
             (geojson r) (Some q), q)
  else pythrow PyAssertionError.

(** [s.split(c)] for a one-character separator. *)
Fixpoint py_split (c : Ascii.ascii) (s : string) : list string :=
  match s with
  | EmptyString => [""]
  | String x s' =>
      let rest := py_split c s' in
      if bool_decide (x = c) then "" :: rest
      else match rest with
           | h :: t => String x h :: t
           | [] => [String x ""]
           end
  end.

(** The text [print_query] prints. *)
Definition print_query (r : request) : pyresult string :=
  let? rq := compose_query r in
  pyret (py_join (";" +:+ String "010"%char EmptyString) (py_split ";"%char (snd rq))).

(** [re.search("[\[]out:([a-zA-Z]+)(?:[\(]|[]])", query)]: at a position the
    pattern matches iff the text there is ["[out:"], a maximal non-empty run of
    ASCII letters (backtracking to a shorter run would leave a letter, which
    is neither ["("] nor ["]"]), then ["("] or ["]"]. *)
Definition is_letter (c : Ascii.ascii) : bool :=
  let n := Ascii.nat_of_ascii c in
  ((65 <=? n) && (n <=? 90)) || ((97 <=? n) && (n <=? 122)).

Fixpoint letters (s : string) : string * string :=
  match s with
  | EmptyString => ("", EmptyString)
  | String c s' =>
      if is_letter c then let (w, r) := letters s' in (String c w, r)
      else ("", s)
  end.

Fixpoint strip_prefix (p s : string) : option string :=
  match p, s with
  | EmptyString, _ => Some s
  | String c p', String d s' => if bool_decide (c = d) then strip_prefix p' s' else None
  | String _ _, EmptyString => None
  end.

Definition match_at (s : string) : option string :=
  match strip_prefix "[out:" s with
  | Some rest =>
      match letters rest with
      | (String a w, String c _) =>
          if bool_decide (c = "("%char) || bool_decide (c = "]"%char)
          then Some (String a w) else None
      | _ => None
      end
  | None => None
  end.

(** The group of the leftmost match. *)
Fixpoint re_search (s : string) : option string :=
  match match_at s with
  | Some w => Some w
  | None => match s with EmptyString => None | String _ s' => re_search s' end
  end.

(** [format = format_search.group(1) if format_search else "xml"] *)
Definition query_format (q : string) : string :=
  match re_search q with Some w => w | None => "xml" end.

(** What the [i]-th call of [urlopen(quoted)] does: return a response whose
    [read()] gives [d], raise an [HTTPError], or raise another exception. *)
Inductive outcome (D : Type) :=
  | Opened (d : D) | RaisedHTTPError (code : nat) | RaisedOther (code : nat).
Arguments Opened {D} _.
Arguments RaisedHTTPError {D} _.
Arguments RaisedOther {D} _.

Section Fetch.
Context {D : Type} (urlopen : nat -> outcome D) (attempts : Z).

(** [for i in range(attempts)] from iteration [i], [k] iterations left;
    [None] when the loop ends without [break] or [raise]. *)
Fixpoint attempt_from (i : nat) (k : nat) : option (pyresult D) :=
  match k with
  | O => None
  | S k' =>
      match urlopen i with
      | Opened d => Some (pyret d)
      | RaisedHTTPError c =>
          if bool_decide (Z.of_nat i = (attempts - 1)%Z) then Some (pythrow (PyHTTPError c))
          else attempt_from (S i) k'
      | RaisedOther c => Some (pythrow (PyOtherError c))
      end
  end.

(** Lines 87-99: [requ] is unbound when the loop never ran. *)
Definition open_with_retry : pyresult D :=
  match attempt_from 0 (Z.to_nat attempts) with
  | Some r => r
  | None => pythrow PyUnboundLocalError
  end.

End Fetch.

(** What [get_data] returns: the raw bytes, a parsed CSV or a parsed JSON. *)
Inductive fetched (D F J : Type) := Raw (d : D) | Frame (f : F) | Json (j : J).
Arguments Raw {D F J} _.
Arguments Frame {D F J} _.
Arguments Json {D F J} _.

(** [get_data]; the parsers [pd.read_csv] and [json.loads] are the arguments
    [parse_csv] and [parse_json]; the request is returned with its [query]. *)
Definition get_data {D F J} (urlopen : nat -> outcome D)
    (parse_csv : D -> pyresult F) (parse_json : D -> pyresult J)
    (r : request) (raw_data : bool) (attempts : Z) : pyresult (request * fetched D F J) :=
  let? rq := compose_query r in
  let fmt := query_format (snd rq) in
  let? data := open_with_retry urlopen attempts in
  if raw_data then pyret (fst rq, Raw data)
  else if bool_decide (fmt = "csv") then
    let? df := parse_csv data in pyret (fst rq, Frame df)
  else if bool_decide (fmt = "json") then
    let? d := parse_json data in pyret (fst rq, Json d)
  else pythrow PyWarning.

(** Lines 118-122 of [get_area_bounding_points_check_orderCM]: the request it
    sends. *)
Definition area_request (area_name : string) (filters : list string) : pyresult request :=
  let r := set_json_format default_request in
  let? r := build_expression (R := Z) pretty r "area"
              (("name=" +:+ dq +:+ area_name +:+ dq) :: filters) [] in
  let r := add_expression r (EStr "rel(pivot);") in
  pyret (set_output r "out geom;").

(** ** The point conversions of [src/overpass/conversion.py] *)

(** A decoded JSON value; an object keeps its keys (distinct, as in a Python
    dict) in order.  Numbers are only copied by the conversions, so integers
    stand for them. *)
#[warnings="-register-all"]
Inductive json :=
  | JNum (z : Z) | JStr (s : string) | JBool (b : bool) | JNull
  | JList (l : list json) | JObj (kv : list (string * json)).

Fixpoint assoc (k : string) (kv : list (string * json)) : option json :=
  match kv with
  | [] => None
  | (k', v) :: kv' => if bool_decide (k = k') then Some v else assoc k kv'
  end.

(** [j[k]] for a string key. *)
Definition getitem (j : json) (k : string) : pyresult json :=
  match j with
  | JObj kv => match assoc k kv with Some v => pyret v | None => pythrow PyKeyError end
  | _ => pythrow PyTypeError
  end.

(** [j[0]]: a dict has only string keys, so [0] is missing. *)
Definition getindex0 (j : json) : pyresult json :=
  match j with
  | JList l => py_index l 0
  | JStr (String c _) => pyret (JStr (String c EmptyString))
  | JStr EmptyString => pythrow PyIndexError
  | JObj _ => pythrow PyKeyError
  | _ => pythrow PyTypeError
  end.

(** [for x in j]: a list gives its items, a dict its keys, a string its
    characters. *)
Definition py_iter (j : json) : pyresult (list json) :=
  match j with
  | JList l => pyret l
  | JObj kv => pyret (map (fun kv => JStr (fst kv)) kv)
  | JStr s => pyret (map (fun c => JStr (String c EmptyString)) (String.list_ascii_of_string s))
  | _ => pythrow PyTypeError
  end.

(** Python's [j == s] for a string [s]. *)
Definition is_str (j : json) (s : string) : bool :=
  match j with JStr t => bool_decide (t = s) | _ => false end.

(** One iteration of [osmdict2points]. *)
Definition osm_row (el : json) : pyresult (json * json) :=
  let? t := getitem el "type" in
  if is_str t "node" then
    let? lat := getitem el "lat" in
    let? lon := getitem el "lon" in
    pyret (lat, lon)
  else
    let? c := getitem el "center" in
    let? lat := getitem c "lat" in
    let? lon := getitem c "lon" in
    pyret (lat, lon).

(** [np.array(points)] on a list of pairs.  Pairs of numbers give the
    two-column array of these numbers, kept as its list of rows (no pair: an
    empty array).  Any other content is converted by numpy's dtype rules
    (numbers next to strings become strings, for instance) or rejected (rows
    of different shapes raise [ValueError]); that conversion is not modelled:
    it is the argument [np_other], giving an array of an abstract type [O]. *)
Fixpoint num_rows (rows : list (json * json)) : option (list (Z * Z)) :=
  match rows with
  | [] => Some []
  | (JNum a, JNum b) :: rows' =>
      match num_rows rows' with Some zs => Some ((a, b) :: zs) | None => None end
  | _ :: _ => None
  end.

Definition np_array {O} (np_other : list (json * json) -> pyresult O)
    (rows : list (json * json)) : pyresult (list (Z * Z) + O) :=
  match num_rows rows with
  | Some zs => pyret (inl zs)
  | None => let? a := np_other rows in pyret (inr a)
  end.

(** [osmdict2points]. *)
Definition osmdict2points {O} (np_other : list (json * json) -> pyresult O) (data : json)
    : pyresult (list (Z * Z) + O) :=
  let? els := getitem data "elements" in
  let? xs := py_iter els in
  let? points := py_map osm_row xs in
  np_array np_other points.

(** One iteration of [geodict2points]: [lon, lat = ...] unpacks exactly two
    items. *)
Definition geo_row (el : json) : pyresult (json * json) :=
  let? g := getitem el "geometry" in
  let? cs := getitem g "coordinates" in
  let? xs := py_iter cs in
  match xs with
  | [lon; lat] => pyret (lon, lat)
  | _ => pythrow PyValueError
  end.

Definition geodict2points {O} (np_other : list (json * json) -> pyresult O) (data : json)
    : pyresult (list (Z * Z) + O) :=
  let? els := getitem data "elements" in
  let? xs := py_iter els in
  let? points := py_map geo_row xs in
  np_array np_other points.

(** The argument of [data2points]: a decoded JSON value, a pandas DataFrame
    (of an abstract type [F]) or any other Python value. *)
Inductive pydata (F : Type) := PyJsonValue (j : json) | PyDataFrame (f : F) | PyOtherValue.
Arguments PyJsonValue {F} _.
Arguments PyDataFrame {F} _.
Arguments PyOtherValue {F}.

(** [data2points]; [df2points] (pandas' [apply], then [np.array]) is the
    argument [df2points]; [points] is unbound when [data] is neither a dict
    nor a DataFrame. *)
Definition data2points {F O} (np_other : list (json * json) -> pyresult O)
    (df2points : F -> pyresult (list (Z * Z) + O))
    (data : pydata F) : pyresult (list (Z * Z) + O) :=
  match data with
  | PyJsonValue (JObj kv) =>
      let? els := getitem (JObj kv) "elements" in
      let? e0 := getindex0 els in
      let? t := getitem e0 "type" in
      if is_str t "node" || is_str t "way" || is_str t "relation"
      then osmdict2points np_other (JObj kv)
      else geodict2points np_other (JObj kv)
  | PyJsonValue _ => pythrow PyUnboundLocalError
  | PyDataFrame f => df2points f
  | PyOtherValue => pythrow PyUnboundLocalError
  end.




(** ** Auxiliary definitions for the properties below *)

(** Members other than ways and nodes. *)
Definition not_other {C} (m : member C) : bool :=
  match m with MOther _ => false | _ => true end.

(** The query text with a line break after each [;]. *)
Fixpoint nl_after_semicolons (s : string) : string :=
  match s with
  | EmptyString => EmptyString
  | String c s' =>
      if bool_decide (c = ";"%char) then String c (String "010"%char (nl_after_semicolons s'))
      else String c (nl_after_semicolons s')
  end.

(** An OSM node element [{"type": "node", "lat": .., "lon": ..}]. *)
Definition node_obj (p : json * json) : json :=
  JObj [("type", JStr "node"); ("lat", p.1); ("lon", p.2)].

(** A GeoJSON point feature with the given [coordinates], and one with the
    coordinates [[x, y]]. *)
Definition feature_with (coords : json) : json :=
  JObj [("type", JStr "Feature");
        ("geometry", JObj [("type", JStr "Point"); ("coordinates", coords)])].
Definition feature_obj (c : json * json) : json := feature_with (JList [c.1; c.2]).



(** Inputs for the examples: a request whose query has no format, a
    download failing twice with HTTP 429 before answering, and some points. *)
Definition xml_request : request := set_expressions default_request [EStr "node(1);out;"].
Definition flaky_urlopen (i : nat) : outcome nat :=
  if Nat.ltb i 2 then RaisedHTTPError 429 else Opened 7.
Definition no_frame (f : unit) : pyresult (list (Z * Z) + unit) := pyret (inl []).
Definition any_array (rows : list (json * json)) : pyresult unit := pyret tt.

(** ** Unfolding lemmas *)

Section Props.
Context {C : Type} `{EqDecision C}.

Lemma last_opt_Some_ne {A} (l : list A) (x : A) : last_opt l = Some x -> l <> [].
Proof. destruct l; simpl; intros H; [discriminate|congruence]. Qed.

Lemma last_opt_snoc {A} (l : list A) (x : A) : last_opt (l ++ [x]) = Some x.
Proof.
  induction l as [|a l IH]; [reflexivity|].
  simpl. destruct (l ++ [x]) eqn:E; [destruct l; discriminate|exact IH].
Qed.

Lemma extend_last_snoc (pre : list (list (@vertex C))) (e s : list vertex) :
  extend_last (pre ++ [e]) s = pre ++ [e ++ s].
Proof.
  induction pre as [|a pre IH]; [reflexivity|].
  simpl. rewrite IH. destruct pre; reflexivity.
Qed.

Lemma py_first_head {A} (l : list A) (x : A) : head l = Some x -> py_first l = inr x.
Proof. destruct l; simpl; intros H; [discriminate|]. injection H as ->. reflexivity. Qed.

Lemma py_last_some {A} (l : list A) (x : A) : last_opt l = Some x -> py_last l = inr x.
Proof. unfold py_last. intros ->. reflexivity. Qed.

Lemma loop_cons (ign : bool) (g : list (point C)) (rest : list (list (point C))) (s : st) :
  loop ign (g :: rest) s = let! s' := step ign s g (head rest) in loop ign rest s'.
Proof. reflexivity. Qed.

(** One bootstrap step, the look-ahead segment being present. *)
Lemma step_boot_next (ign : bool) (s : st) (g n : list (point C)) (f l : vertex) :
  points s = [] -> head (segm g) = Some f -> last_opt (segm g) = Some l ->
  step ign s g (Some n) =
    inr (if inb l (segm n) then set_points s (points s ++ segm g)
         else if inb f (segm n) then set_points s (points s ++ rev (segm g))
         else set_exclaves s (exclaves s ++ [segm g])).
Proof.
  intros Hp Hf Hl. unfold step, step_boot. rewrite Hp.
  rewrite (py_first_head _ _ Hf), (py_last_some _ _ Hl). simpl.
  destruct (inb l (segm n)); [reflexivity|].
  destruct (inb f (segm n)); reflexivity.
Qed.

(** One main-pass step: [points] non-empty with last vertex [t]. *)
Lemma step_main_unfold (ign : bool) (s : st) (g : list (point C))
    (nx : option (list (point C))) (f l t : vertex) :
  last_opt (points s) = Some t -> head (segm g) = Some f -> last_opt (segm g) = Some l ->
  step ign s g nx =
    if inb f (points s) && inb l (points s) then
      if bool_decide (f = t) then inr (set_points s (points s ++ segm g))
      else if bool_decide (l = t) then inr (set_points s (points s ++ rev (segm g)))
      else inl NotConsecutive
    else if inb f (points s) then
      if ign && negb (bool_decide (f = t)) then inr (set_ignored s (ignored s ++ segm g))
      else inr (set_points s (points s ++ segm g))
    else if inb l (points s) then
      if ign && negb (bool_decide (l = t)) then inr (set_ignored s (ignored s ++ segm g))
      else inr (set_points s (points s ++ rev (segm g)))
    else step_isolated ign s (segm g) f l.
Proof.
  intros Ht Hf Hl.
  assert (step ign s g nx = step_main ign s (segm g)) as ->.
  { unfold step. destruct (points s) eqn:Hp; [|reflexivity].
    apply last_opt_Some_ne in Ht. congruence. }
  unfold step_main.
  rewrite (py_first_head _ _ Hf), (py_last_some _ _ Ht), (py_last_some _ _ Hl).
  reflexivity.
Qed.

Lemma extend_last_keeps (ex : list (list (@vertex C))) (x : list vertex) (v : vertex) :
  (exists e, e ∈ ex /\ v ∈ e) -> exists e, e ∈ extend_last ex x /\ v ∈ e.
Proof.
  induction ex as [|a ex IH]; intros (e & He & Hv); [set_solver|].
  destruct ex as [|b ex].
  - exists (a ++ x). simpl. set_solver.
  - apply elem_of_cons in He as [-> | He].
    + exists a. simpl. set_solver.
    + destruct IH as (e' & He' & Hv'); [eauto|].
      exists e'. change (extend_last (a :: b :: ex) x) with (a :: extend_last (b :: ex) x).
      set_solver.
Qed.

Lemma extend_last_adds (ex : list (list (@vertex C))) (x : list vertex) (v : vertex) :
  ex <> [] -> v ∈ x -> exists e, e ∈ extend_last ex x /\ v ∈ e.
Proof.
  induction ex as [|a ex IH]; intros Hne Hv; [congruence|].
  destruct ex as [|b ex].
  - exists (a ++ x). simpl. set_solver.
  - destruct IH as (e' & He' & Hv'); [congruence|exact Hv|].
    exists e'. change (extend_last (a :: b :: ex) x) with (a :: extend_last (b :: ex) x).
    set_solver.
Qed.

Lemma elem_of_rev_iff {A} (l : list A) (x : A) : x ∈ rev l <-> x ∈ l.
Proof. rewrite !list_elem_of_In. symmetry. apply in_rev. Qed.

#[local] Instance set_unfold_rev {A} (x : A) (l : list A) P :
  SetUnfoldElemOf x l P -> SetUnfoldElemOf x (rev l) P.
Proof. intros [HP]. constructor. rewrite elem_of_rev_iff. exact HP. Qed.

Ltac step_cases :=
  unfold step, step_main, step_boot, step_isolated, bind, py_first, py_last,
    ret, throw, set_points, set_exclaves, set_ignored;
  intros Hstep; repeat case_match; simplify_eq/=.

(** A step only appends to the main ring. *)
Lemma step_points_prefix (ign : bool) (s s' : st) (g : list (point C))
    (nx : option (list (point C))) :
  step ign s g nx = inr s' -> exists suf, points s' = points s ++ suf.
Proof.
  step_cases; first [exists []; by rewrite app_nil_r | eexists; reflexivity].
Qed.

Lemma loop_points_prefix (ign : bool) (ws : list (list (point C))) (s s' : st) :
  loop ign ws s = inr s' -> exists suf, points s' = points s ++ suf.
Proof.
  revert s. induction ws as [|g ws IH]; intros s H.
  - simpl in H. injection H as <-. exists []. by rewrite app_nil_r.
  - rewrite loop_cons in H. unfold bind in H.
    destruct (step ign s g (head ws)) as [e|s1] eqn:Hs; [discriminate|].
    destruct (step_points_prefix ign s s1 g _ Hs) as [suf1 H1].
    destruct (IH s1 H) as [suf2 H2].
    exists (suf1 ++ suf2). rewrite H2, H1, app_assoc. reflexivity.
Qed.

(** A step keeps every placed vertex placed, and places the whole
    segment it processes. *)
Lemma step_placed (ign : bool) (s s' : st) (g : list (point C))
    (nx : option (list (point C))) :
  step ign s g nx = inr s' ->
  (forall v, placed s v -> placed s' v) /\ (forall v, v ∈ segm g -> placed s' v).
Proof.
  unfold step, step_main, step_boot, step_isolated, bind, py_first, py_last,
    ret, throw, set_points, set_exclaves, set_ignored.
  destruct s as [p ex ig]; cbn zeta; cbn [points exclaves ignored].
  remember (segm g) as sg eqn:Esg; clear Esg.
  intros Hstep; repeat case_match; simplify_eq/=;
  unfold placed; cbn [points exclaves ignored]; split; intros w Hw;
  repeat match goal with
  | H : last_opt _ = Some _ |- _ => apply last_opt_Some_ne in H
  end;
  try (destruct Hw as [Hw | [(e & He & Hwe) | Hw]]);
  first
  [ by right; left; exists e
  | by left; set_solver
  | by right; right; set_solver
  | by right; left; apply extend_last_keeps; eauto
  | by right; left; apply extend_last_adds; [done | set_solver]
  | by right; left; eexists; split; [|eassumption]; set_solver
  ].
Qed.

Lemma loop_placed (ign : bool) (ws : list (list (point C))) (s s' : st) :
  loop ign ws s = inr s' ->
  (forall v, placed s v -> placed s' v) /\
  (forall g v, g ∈ ws -> v ∈ segm g -> placed s' v).
Proof.
  revert s. induction ws as [|g ws IH]; intros s H.
  - simpl in H. injection H as <-. split; [done|]. intros g v Hg. set_solver.
  - rewrite loop_cons in H. unfold bind in H.
    destruct (step ign s g (head ws)) as [e|s1] eqn:Hs; [discriminate|].
    destruct (step_placed ign s s1 g _ Hs) as [Hkeep Hnew].
    destruct (IH s1 H) as [Hkeep' Hnew'].
    split; [eauto|].
    intros g' v Hg' Hv. apply elem_of_cons in Hg' as [-> | Hg']; eauto.
Qed.

Lemma members_ways_elem (ms : list (member C)) (g : list (point C)) :
  MWay g ∈ ms -> g ∈ members_ways ms.
Proof.
  induction ms as [|m ms IH]; intros H; [set_solver|].
  apply elem_of_cons in H as [<- | H].
  - simpl. set_solver.
  - destruct m; simpl; [apply elem_of_cons; right|..]; auto.
Qed.

(** ** The claims *)

(** C1: while the main ring is empty, a way segment is oriented by looking
    ahead at the full vertex list of the next way segment: kept as-is and
    appended to the main ring if its last vertex occurs there, reversed and
    appended if only its first vertex does, and otherwise pushed as a new
    exclave ring; the loop then goes on with the next segment. *)
Theorem bootstrap_lookahead (ign : bool) (s : st) (g n : list (point C))
    (rest : list (list (point C))) (f l : vertex) :
  points s = [] -> head (segm g) = Some f -> last_opt (segm g) = Some l ->
  loop ign (g :: n :: rest) s =
    loop ign (n :: rest)
      (if inb l (segm n) then set_points s (points s ++ segm g)
       else if inb f (segm n) then set_points s (points s ++ rev (segm g))
       else set_exclaves s (exclaves s ++ [segm g])).
Proof.
  intros Hp Hf Hl. rewrite loop_cons. change (head (n :: rest)) with (Some n).
  rewrite (step_boot_next ign s g n f l Hp Hf Hl). reflexivity.
Qed.

(** C3: a way segment with exactly one endpoint in the non-empty main ring,
    that endpoint not being the ring's last vertex, is added whole to the
    ignored vertices when [ignore_enclaves] holds, and otherwise appended to
    the main ring, forward if its first endpoint matched and reversed if its
    last one did. *)
Theorem enclave_suppression (ign : bool) (s : st) (g : list (point C))
    (rest : list (list (point C))) (f l t : vertex) :
  last_opt (points s) = Some t -> head (segm g) = Some f -> last_opt (segm g) = Some l ->
  (f ∈ points s /\ (l ∉ points s) /\ f <> t) \/ (l ∈ points s /\ (f ∉ points s) /\ l <> t) ->
  loop ign (g :: rest) s =
    loop ign rest
      (if ign then set_ignored s (ignored s ++ segm g)
       else if bool_decide (f ∈ points s) then set_points s (points s ++ segm g)
       else set_points s (points s ++ rev (segm g))).
Proof.
  intros Ht Hf Hl Hcase. rewrite loop_cons.
  rewrite (step_main_unfold ign s g (head rest) f l t Ht Hf Hl).
  unfold inb.
  destruct Hcase as [(Hfin & Hlout & Hft) | (Hlin & Hfout & Hlt)].
  - rewrite (bool_decide_true _ Hfin), (bool_decide_false _ Hlout),
      (bool_decide_false _ Hft).
    destruct ign; reflexivity.
  - rewrite (bool_decide_false _ Hfout), (bool_decide_true _ Hlin),
      (bool_decide_false _ Hlt).
    destruct ign; reflexivity.
Qed.

(** C4: a way segment both of whose endpoints are in the non-empty main ring,
    neither being the ring's last vertex, makes the loop raise the
    not-consecutive exception: no state, hence no ring, is returned. *)
Theorem closing_not_consecutive (ign : bool) (s : st) (g : list (point C))
    (rest : list (list (point C))) (f l t : vertex) :
  last_opt (points s) = Some t -> head (segm g) = Some f -> last_opt (segm g) = Some l ->
  f ∈ points s -> l ∈ points s -> f <> t -> l <> t ->
  loop ign (g :: rest) s = inl NotConsecutive.
Proof.
  intros Ht Hf Hl Hfin Hlin Hft Hlt. rewrite loop_cons.
  rewrite (step_main_unfold ign s g (head rest) f l t Ht Hf Hl).
  unfold inb.
  rewrite (bool_decide_true _ Hfin), (bool_decide_true _ Hlin),
    (bool_decide_false _ Hft), (bool_decide_false _ Hlt).
  reflexivity.
Qed.

(** C5: a way segment with no endpoint in the non-empty main ring (and, with
    [ignore_enclaves], no endpoint among the ignored vertices) never changes
    the main ring: with no exclave ring yet it opens one; otherwise only the
    most recent exclave ring [e] is consulted (closing, extending forward,
    extending reversed, or raising when both endpoints are in [e] but neither
    is its last vertex), the earlier exclave rings [pre] are left as they are,
    and when no endpoint is in [e] a new exclave ring holding the segment is
    opened. *)
Theorem exclave_most_recent (ign : bool) (s : st) (g : list (point C))
    (rest : list (list (point C))) (f l t : vertex) :
  last_opt (points s) = Some t -> head (segm g) = Some f -> last_opt (segm g) = Some l ->
  f ∉ points s -> l ∉ points s ->
  (ign = true -> (f ∉ ignored s) /\ (l ∉ ignored s)) ->
  (exclaves s = [] ->
     loop ign (g :: rest) s = loop ign rest (mk_st (points s) [segm g] (ignored s))) /\
  (forall pre e, exclaves s = pre ++ [e] ->
     loop ign (g :: rest) s =
       if bool_decide (f ∈ e) && bool_decide (l ∈ e) then
         if bool_decide (Some f = last_opt e) then
           loop ign rest (mk_st (points s) (pre ++ [e ++ segm g]) (ignored s))
         else if bool_decide (Some l = last_opt e) then
           loop ign rest (mk_st (points s) (pre ++ [e ++ rev (segm g)]) (ignored s))
         else inl NotConsecutive
       else if bool_decide (f ∈ e) then
         loop ign rest (mk_st (points s) (pre ++ [e ++ segm g]) (ignored s))
       else if bool_decide (l ∈ e) then
         loop ign rest (mk_st (points s) (pre ++ [e ++ rev (segm g)]) (ignored s))
       else loop ign rest (mk_st (points s) (pre ++ [e; segm g]) (ignored s))).
Proof.
  intros Ht Hf Hl Hfout Hlout Hig.
  assert (Hstep : step ign s g (head rest) = step_isolated ign s (segm g) f l).
  { rewrite (step_main_unfold ign s g (head rest) f l t Ht Hf Hl). unfold inb.
    rewrite (bool_decide_false _ Hfout), (bool_decide_false _ Hlout). reflexivity. }
  assert (Hnoign : ign && (inb f (ignored s) || inb l (ignored s)) = false).
  { destruct ign; [|reflexivity]. destruct (Hig eq_refl) as [Hf' Hl'].
    unfold inb. rewrite (bool_decide_false _ Hf'), (bool_decide_false _ Hl').
    reflexivity. }
  split.
  - intros He. rewrite loop_cons, Hstep. unfold step_isolated.
    rewrite Hnoign, He. reflexivity.
  - intros pre e He. rewrite loop_cons, Hstep. unfold step_isolated.
    rewrite Hnoign, He, last_opt_snoc, !extend_last_snoc. unfold inb.
    unfold set_exclaves. rewrite <- app_assoc.
    destruct (bool_decide (f ∈ e)), (bool_decide (l ∈ e)); simpl; try reflexivity;
    destruct (bool_decide (Some f = last_opt e)); try reflexivity;
    destruct (bool_decide (Some l = last_opt e)); reflexivity.
Qed.

(** C10: the look-ahead is used for every segment met while the main ring is
    empty: when the first segment shares no vertex with the second and is
    pushed as an exclave ring, the second segment is oriented by looking
    ahead at the third one. *)
Theorem bootstrap_repeats (ign : bool) (s : st) (g1 g2 g3 : list (point C))
    (rest : list (list (point C))) (f1 l1 f2 l2 : vertex) :
  points s = [] ->
  head (segm g1) = Some f1 -> last_opt (segm g1) = Some l1 ->
  f1 ∉ segm g2 -> l1 ∉ segm g2 ->
  head (segm g2) = Some f2 -> last_opt (segm g2) = Some l2 ->
  loop ign (g1 :: g2 :: g3 :: rest) s =
    loop ign (g3 :: rest)
      (if inb l2 (segm g3) then mk_st (segm g2) (exclaves s ++ [segm g1]) (ignored s)
       else if inb f2 (segm g3) then
         mk_st (rev (segm g2)) (exclaves s ++ [segm g1]) (ignored s)
       else mk_st [] (exclaves s ++ [segm g1; segm g2]) (ignored s)).
Proof.
  intros Hp Hf1 Hl1 Hf1out Hl1out Hf2 Hl2.
  rewrite loop_cons. change (head (g2 :: g3 :: rest)) with (Some g2).
  rewrite (step_boot_next ign s g1 g2 f1 l1 Hp Hf1 Hl1). unfold inb.
  rewrite (bool_decide_false _ Hl1out), (bool_decide_false _ Hf1out). simpl bind.
  rewrite loop_cons. change (head (g3 :: rest)) with (Some g3).
  rewrite (step_boot_next ign (set_exclaves s (exclaves s ++ [segm g1])) g2 g3 f2 l2 Hp Hf2 Hl2). simpl bind. unfold inb.
  unfold set_points, set_exclaves. simpl. rewrite Hp, <- app_assoc.
  destruct (bool_decide (l2 ∈ segm g3)); [reflexivity|].
  destruct (bool_decide (f2 ∈ segm g3)); reflexivity.
Qed.

(** C6 (amended): on a successful run of the loop over the ways of a member
    list, every vertex of every way member is in the main ring, in some
    exclave ring or among the ignored vertices.  (The three need not be
    disjoint: see [partition_overlap].) *)
Theorem way_vertices_placed (ign : bool) (ms : list (member C)) (s' : st)
    (g : list (point C)) (v : vertex) :
  loop ign (members_ways ms) init_st = inr s' ->
  MWay g ∈ ms -> v ∈ segm g -> placed s' v.
Proof.
  intros Hrun Hg Hv.
  destruct (loop_placed ign (members_ways ms) init_st s' Hrun) as [_ Hnew].
  exact (Hnew g v (members_ways_elem ms g Hg) Hv).
Qed.

(** C7 (amended): with exactly one way member, [assemble] always fails: the
    look-ahead [members_ways[i+1]] raises an [IndexError] (also for an empty
    geometry, whose [[0]] raises it first); this is not the not-consecutive
    exception of the contiguity checks. *)
Theorem single_way_index_error {B} (b : B) (ms : list (member C)) (ign : bool)
    (g : list (point C)) :
  members_ways ms = [g] -> assemble b ms ign = inl IndexError.
Proof.
  intros Hw. unfold assemble. rewrite Hw. simpl.
  unfold step, step_boot, bind, py_first, py_last. simpl.
  destruct (segm g) as [|x xs]; [reflexivity|].
  destruct (last_opt (x :: xs)); reflexivity.
Qed.

(** C8: the loop only ever appends to the main ring: from any state, a
    successful run leaves the earlier main ring as a prefix of the final one. *)
Theorem main_ring_append_only (ign : bool) (ws : list (list (point C))) (s s' : st) :
  loop ign ws s = inr s' -> exists suf, points s' = points s ++ suf.
Proof. apply loop_points_prefix. Qed.

(** C9: the node list returned by a successful call is the list of the node
    members, in member order, each as [[lon, lat]]; it does not depend on the
    ways nor on [ignore_enclaves], and the bounds are passed through. *)
Theorem nodes_passthrough {B} (b b' : B) (ms : list (member C)) (ign : bool)
    (p : list vertex) (ex : list (list vertex)) (n : list vertex) :
  assemble b ms ign = inr (p, ex, n, b') -> n = node_points ms /\ b' = b.
Proof.
  unfold assemble, bind. destruct (loop ign (members_ways ms) init_st); [discriminate|].
  intros H. injection H as _ _ <- <-. split; reflexivity.
Qed.

End Props.

(** C2 (amended): for the ways [A] and [B], [A] is taken as-is and [B] is
    appended forward in full, so the shared vertex [(1,1)] occurs twice in the
    main ring; no exclave ring is opened, whatever [ignore_enclaves] is. *)
Theorem closing_segment_AB {B} (b : B) (ign : bool) :
  assemble b [MWay way_A; MWay way_B] ign =
    inr (segm way_A ++ segm way_B, [], [], b) /\
  segm way_A ++ segm way_B = [(0,0); (1,0); (1,1); (1,1); (0,1); (0,0)]%Z.
Proof. destruct ign; split; reflexivity. Qed.

(** C2 counterexample: the main ring for [A], [B] is not
    [[0,0],[1,0],[1,1],[0,1],[0,0]]. *)
Lemma closing_segment_AB_duplicate :
  assemble tt [MWay way_A; MWay way_B] false =
    inr ([(0,0); (1,0); (1,1); (1,1); (0,1); (0,0)]%Z, [], [], tt) /\
  [(0,0); (1,0); (1,1); (1,1); (0,1); (0,0)]%Z <> [(0,0); (1,0); (1,1); (0,1); (0,0)]%Z.
Proof. split; [reflexivity|discriminate]. Qed.

(** C6 counterexample: with [ignore_enclaves], the way [R] touching the ring
    at its interior vertex [(1,0)] is ignored whole, so [(1,0)] is both in the
    main ring and among the ignored vertices. *)
Lemma partition_overlap :
  loop true (members_ways [MWay way_P; MWay way_Q; MWay way_R]) init_st =
    inr (mk_st (segm way_P ++ segm way_Q) [] (segm way_R)) /\
  (1,0)%Z ∈ segm way_P ++ segm way_Q /\ (1,0)%Z ∈ segm way_R.
Proof.
  split; [reflexivity|].
  split; apply (bool_decide_unpack _); vm_compute; exact I.
Qed.

(** C7 counterexample: the single-way failure is the [IndexError] of the
    look-ahead, not the not-consecutive exception. *)
Lemma single_way_not_sequence_error :
  assemble tt [MWay way_A] false = inl IndexError /\
  assemble tt [MWay way_A] false <> inl NotConsecutive.
Proof. split; [reflexivity|]. vm_compute. discriminate. Qed.

(** ** The theorems at concrete inputs *)

Ltac decide_in := apply (bool_decide_unpack _); vm_compute; exact I.

Lemma bootstrap_lookahead_witness :
  loop false [way_A; way_B] init_st =
    loop false [way_B]
      (if inb (1,1)%Z (segm way_B) then set_points init_st (points init_st ++ segm way_A)
       else if inb (0,0)%Z (segm way_B) then
         set_points init_st (points init_st ++ rev (segm way_A))
       else set_exclaves init_st (exclaves init_st ++ [segm way_A])).
Proof.
  apply (bootstrap_lookahead false init_st way_A way_B [] (0,0)%Z (1,1)%Z);
    reflexivity.
Defined.

Lemma enclave_suppression_witness :
  loop true [way_spur] st_A =
    loop true [] (set_ignored st_A (ignored st_A ++ segm way_spur)).
Proof.
  apply (enclave_suppression true st_A way_spur [] (1,0)%Z (7,7)%Z (1,1)%Z);
    [reflexivity | reflexivity | reflexivity |].
  left. split; [decide_in | split; [decide_in | discriminate]].
Defined.

Lemma closing_not_consecutive_witness :
  loop false [way_chord] st_A = inl NotConsecutive.
Proof.
  apply (closing_not_consecutive false st_A way_chord [] (0,0)%Z (1,0)%Z (1,1)%Z);
    first [reflexivity | decide_in | discriminate].
Defined.

Lemma exclave_most_recent_witness :
  let s := mk_st (segm way_A) [segm way_far] [] in
  (exclaves s = [] ->
     loop false [way_far2] s = loop false [] (mk_st (points s) [segm way_far2] (ignored s))) /\
  (forall pre e, exclaves s = pre ++ [e] ->
     loop false [way_far2] s =
       if bool_decide ((6,5)%Z ∈ e) && bool_decide ((6,6)%Z ∈ e) then
         if bool_decide (Some (6,5)%Z = last_opt e) then
           loop false [] (mk_st (points s) (pre ++ [e ++ segm way_far2]) (ignored s))
         else if bool_decide (Some (6,6)%Z = last_opt e) then
           loop false [] (mk_st (points s) (pre ++ [e ++ rev (segm way_far2)]) (ignored s))
         else inl NotConsecutive
       else if bool_decide ((6,5)%Z ∈ e) then
         loop false [] (mk_st (points s) (pre ++ [e ++ segm way_far2]) (ignored s))
       else if bool_decide ((6,6)%Z ∈ e) then
         loop false [] (mk_st (points s) (pre ++ [e ++ rev (segm way_far2)]) (ignored s))
       else loop false [] (mk_st (points s) (pre ++ [e; segm way_far2]) (ignored s))).
Proof.
  apply (exclave_most_recent false (mk_st (segm way_A) [segm way_far] []) way_far2 []
           (6,5)%Z (6,6)%Z (1,1)%Z);
    [reflexivity | reflexivity | reflexivity | decide_in | decide_in | discriminate].
Defined.

Lemma bootstrap_repeats_witness :
  loop false [way_far; way_A; way_B] init_st =
    loop false [way_B]
      (if inb (1,1)%Z (segm way_B) then mk_st (segm way_A) [segm way_far] []
       else if inb (0,0)%Z (segm way_B) then mk_st (rev (segm way_A)) [segm way_far] []
       else mk_st [] [segm way_far; segm way_A] []).
Proof.
  apply (bootstrap_repeats false init_st way_far way_A way_B []
           (5,5)%Z (6,5)%Z (0,0)%Z (1,1)%Z);
    first [reflexivity | decide_in].
Defined.

Lemma way_vertices_placed_witness : placed st_AB (1,0)%Z.
Proof.
  apply (way_vertices_placed false [MWay way_A; MWay way_B] st_AB way_A (1,0)%Z);
    [reflexivity | apply list_elem_of_here | decide_in].
Defined.

Lemma single_way_index_error_witness :
  assemble tt [MNode (pt 3 4); MWay way_A] true = inl IndexError.
Proof. apply (single_way_index_error tt [MNode (pt 3 4); MWay way_A] true way_A). reflexivity. Defined.

Lemma main_ring_append_only_witness :
  exists suf, points st_AB = points st_A ++ suf.
Proof. apply (main_ring_append_only false [way_B] st_A st_AB). reflexivity. Defined.

Lemma nodes_passthrough_witness :
  [(3,4)%Z] = node_points [MNode (pt 3 4); MWay way_A; MOther 7; MWay way_B] /\ tt = tt.
Proof.
  apply (nodes_passthrough tt tt [MNode (pt 3 4); MWay way_A; MOther 7; MWay way_B] false
           (points st_AB) [] [(3,4)%Z]).
  reflexivity.
Defined.

(** ** Further properties of the stitching loop *)

Section StitchProps.
Context {C : Type} `{EqDecision C}.

Ltac stitch_cases :=
  unfold step, step_main, step_boot, step_isolated, bind, py_first, py_last,
    ret, throw, set_points, set_exclaves, set_ignored;
  intros Hstep; repeat case_match; simplify_eq/=.

Lemma concat_extend_last (ex : list (list (@vertex C))) (x : list vertex) :
  ex <> [] -> concat (extend_last ex x) = concat ex ++ x.
Proof.
  induction ex as [|e ex IH]; [done|]. intros _.
  destruct ex as [|e' ex]; simpl.
  - by rewrite !app_nil_r.
  - simpl in IH. rewrite IH by done. by rewrite !app_assoc.
Qed.

Lemma step_keeps_ignored (s s' : st) (g : list (point C)) (nx : option (list (point C))) :
  step false s g nx = inr s' -> ignored s' = ignored s.
Proof. stitch_cases; reflexivity. Qed.

Lemma loop_keeps_ignored (ws : list (list (point C))) (s s' : st) :
  loop false ws s = inr s' -> ignored s' = ignored s.
Proof.
  revert s. induction ws as [|g ws IH]; intros s; simpl.
  - by intros [= ->].
  - unfold bind. destruct (step false s g (head ws)) as [e|s1] eqn:E; [discriminate|].
    intros H. rewrite (IH _ H). exact (step_keeps_ignored _ _ _ _ E).
Qed.

Lemma step_perm (ign : bool) (s s' : st) (g : list (point C)) (nx : option (list (point C))) :
  step ign s g nx = inr s' ->
  points s' ++ concat (exclaves s') ++ ignored s'
    ≡ₚ points s ++ concat (exclaves s) ++ ignored s ++ segm g.
Proof.
  stitch_cases;
    rewrite ?concat_extend_last by (eapply last_opt_Some_ne; eassumption);
    rewrite ?concat_app; simpl; rewrite ?app_nil_r, <-?Permutation_rev;
    solve_Permutation.
Qed.

Lemma loop_perm (ign : bool) (ws : list (list (point C))) (s s' : st) :
  loop ign ws s = inr s' ->
  points s' ++ concat (exclaves s') ++ ignored s'
    ≡ₚ points s ++ concat (exclaves s) ++ ignored s ++ concat (map segm ws).
Proof.
  revert s. induction ws as [|g ws IH]; intros s; simpl.
  - intros [= ->]. by rewrite !app_nil_r.
  - unfold bind. destruct (step ign s g (head ws)) as [e|s1] eqn:E; [discriminate|].
    intros H. etrans; [exact (IH _ H)|].
    transitivity ((points s1 ++ concat (exclaves s1) ++ ignored s1) ++ concat (map segm ws));
      [by rewrite <-!app_assoc|].
    rewrite (step_perm _ _ _ _ _ E). by rewrite <-!app_assoc.
Qed.

Lemma members_ways_not_other (ms : list (member C)) :
  members_ways (List.filter not_other ms) = members_ways ms.
Proof. induction ms as [|[g|p|r] ms IH]; simpl; congruence. Qed.

Lemma node_points_not_other (ms : list (member C)) :
  node_points (List.filter not_other ms) = node_points ms.
Proof. induction ms as [|[g|p|r] ms IH]; simpl; congruence. Qed.

(** With [ignore_enclaves] off, [ignored] stays empty: every way ends in the
    main ring or in an exclave ring. *)
Theorem no_ignored_without_flag (ms : list (member C)) (s' : st) :
  loop false (members_ways ms) init_st = inr s' -> ignored s' = [].
Proof. intros H. exact (loop_keeps_ignored _ _ _ H). Qed.

(** Nothing is lost or invented: when the loop succeeds, the main ring, the
    exclave rings and the ignored vertices together are a permutation of the
    vertices of all way members, counted with multiplicity. *)
Theorem vertices_permutation (ign : bool) (ms : list (member C)) (s' : st) :
  loop ign (members_ways ms) init_st = inr s' ->
  points s' ++ concat (exclaves s') ++ ignored s' ≡ₚ concat (map segm (members_ways ms)).
Proof. intros H. rewrite (loop_perm _ _ _ _ H). reflexivity. Qed.

(** Members that are neither ways nor nodes do not influence the result. *)
Theorem other_members_irrelevant {B} (b : B) (ms : list (member C)) (ign : bool) :
  assemble b (List.filter not_other ms) ign = assemble b ms ign.
Proof.
  unfold assemble. by rewrite members_ways_not_other, node_points_not_other.
Qed.

End StitchProps.


(** ** Properties of the query builder, the download and the conversions *)

Lemma str_app_nil_l (b : string) : "" +:+ b = b.
Proof. reflexivity. Qed.

Lemma str_app_cons (c : ascii) (a b : string) : String c a +:+ b = String c (a +:+ b).
Proof. reflexivity. Qed.

Lemma str_app_assoc (a b c : string) : a +:+ (b +:+ c) = (a +:+ b) +:+ c.
Proof. induction a as [|x a IH]; [reflexivity|by rewrite !str_app_cons, IH]. Qed.

Lemma str_app_nil_r (a : string) : a +:+ "" = a.
Proof. induction a as [|x a IH]; [reflexivity|by rewrite str_app_cons, IH]. Qed.

Lemma py_concat_cons (x : string) (xs : list string) : py_concat (x :: xs) = x +:+ py_concat xs.
Proof. unfold py_concat. destruct xs; simpl; [by rewrite str_app_nil_r|reflexivity]. Qed.

Lemma append_exprs_strs (q : string) (ss : list string) :
  append_exprs q (map EStr ss) = inr (q +:+ py_concat ss).
Proof.
  revert q. induction ss as [|x ss IH]; intros q; simpl.
  - by rewrite str_app_nil_r.
  - rewrite IH, py_concat_cons, str_app_assoc. reflexivity.
Qed.

Lemma query_format_json (x : string) : query_format ("[out:json];" +:+ x) = "json".
Proof. reflexivity. Qed.

Lemma query_format_csv (x : string) : query_format ("[out:csv(" +:+ x) = "csv".
Proof. reflexivity. Qed.

(** The query [get_area_bounding_points_check_orderCM] sends: the JSON format,
    the area selected by name and the extra filters, the pivot relation and
    the [out geom;] output, in this order and with nothing in between. *)
Theorem area_query_text (n : string) (fs : list string) :
  exists r r', area_request n fs = inr r /\
  compose_query r = inr (r', "[out:json];area[name=" +:+ dq +:+ n +:+ dq +:+ "]" +:+
      py_concat (map (fun f => "[" +:+ f +:+ "]") fs) +:+ ";rel(pivot);out geom;").
Proof.
  eexists _, _; split; [reflexivity|].
  unfold compose_query. cbn -[py_concat String.append].
  rewrite py_concat_cons, bool_decide_eq_true_2 by lia.
  unfold pyret. do 2 f_equal. rewrite <-!str_app_assoc. reflexivity.
Qed.

(** Downloading the area query never yields raw bytes, a DataFrame or a
    [Warning]: its format is detected as [json], so the response is decoded
    by [json.loads]. *)
Theorem area_get_data {D F J} (n : string) (fs : list string) (urlopen : nat -> outcome D)
    (parse_csv : D -> pyresult F) (parse_json : D -> pyresult J) (attempts : Z) :
  exists r r', area_request n fs = inr r /\
  get_data urlopen parse_csv parse_json r false attempts =
    (let? d := open_with_retry urlopen attempts in let? j := parse_json d in pyret (r', Json j)).
Proof. eexists _, _; split; [reflexivity|reflexivity]. Qed.

(** Whatever string expressions a request has, setting its format with
    [set_json_format], or with [set_csv_format] for any columns, header flag
    and separator, makes [get_data] detect the format [json], resp. [csv]. *)
Theorem format_setters_detected (r : request) (ss : list string) (columns : list string)
    (header : bool) (sep : string) :
  expressions r = map EStr ss -> ss <> [] ->
  (exists r' q, compose_query (set_json_format r) = inr (r', q) /\ query_format q = "json") /\
  (exists r' q, compose_query (set_csv_format r columns header sep) = inr (r', q) /\
                query_format q = "csv").
Proof.
  intros He Hne.
  assert (Hl : 0 < length (map EStr ss)) by (destruct ss; [done|simpl; lia]).
  unfold compose_query; cbn [set_json_format set_csv_format set_format expressions format_expr
    geojson out_expr]; rewrite He, bool_decide_eq_true_2 by exact Hl;
    rewrite !append_exprs_strs; cbn [pybind]; split; (eexists _, _; split; [reflexivity|]);
    destruct (geojson r); rewrite <-!str_app_assoc;
    first [apply query_format_json | apply query_format_csv].
Qed.

Lemma expr_ind' (P : expr -> Prop) (HS : forall s, P (EStr s))
    (HL : forall l, Forall P l -> P (EList l)) : forall e, P e.
Proof.
  fix IH 1. intros [s|l]; [apply HS|apply HL].
  revert l. fix IHl 1. intros [|x l]; constructor; [apply IH|apply IHl].
Qed.

Lemma add_expr_extends (e : expr) : forall es, exists t, add_expr es e = es ++ t.
Proof.
  induction e as [s|l HF] using expr_ind'; intros es; simpl.
  - by exists [EStr s].
  - enough (Hall : forall es, exists t, (fix add_all (es : list expr) (l : list expr) : list expr :=
         match l with [] => es | x :: l' => add_all (add_expr es x) l' end) es l = es ++ t).
    { destruct (Hall es) as [t ->]. exists (t ++ [EList l]). by rewrite app_assoc. }
    induction HF as [|x l Px _ IH]; intros es'.
    + exists []. by rewrite app_nil_r.
    + destruct (Px es') as [t1 Ht1]. destruct (IH (es' ++ t1)) as [t2 Ht2].
      exists (t1 ++ t2). rewrite app_assoc, <-Ht2, <-Ht1. reflexivity.
Qed.

Lemma append_exprs_list (q : string) (es : list expr) (l : list expr) :
  EList l ∈ es -> append_exprs q es = inl PyTypeError.
Proof.
  revert q. induction es as [|[s|l'] es IH]; intros q Hin.
  - by apply elem_of_nil in Hin.
  - apply elem_of_cons in Hin as [Hin|Hin]; [discriminate|]. simpl. by apply IH.
  - reflexivity.
Qed.

Lemma fold_add_expression_extends (later : list expr) (r : request) :
  exists t, expressions (fold_left add_expression later r) = expressions r ++ t.
Proof.
  revert r. induction later as [|e later IH]; intros r; simpl.
  - exists []. by rewrite app_nil_r.
  - destruct (IH (add_expression r e)) as [t2 ->].
    destruct (add_expr_extends e (expressions r)) as [t1 Ht1]. simpl. rewrite Ht1.
    exists (t1 ++ t2). by rewrite app_assoc.
Qed.

(** Once a list has been passed to [add_expression], the list itself stays in
    [self.expressions], so [compose_query] raises [TypeError] whatever is
    added afterwards. *)
Theorem list_expression_breaks_compose (r : request) (l : list expr) (later : list expr) :
  compose_query (fold_left add_expression later (add_expression r (EList l))) = inl PyTypeError.
Proof.
  destruct (fold_add_expression_extends later (add_expression r (EList l))) as [t Ht].
  destruct (add_expr_extends (EList l) (expressions r)) as [t0 Ht0].
  assert (Hin : EList l ∈ expressions (fold_left add_expression later (add_expression r (EList l)))).
  { rewrite Ht. apply elem_of_app. left. simpl. simpl in Ht0.
    enough (EList l ∈ (fix add_all (es : list expr) (l : list expr) : list expr :=
         match l with [] => es | x :: l' => add_all (add_expr es x) l' end) (expressions r) l
         ++ [EList l]) by done.
    apply elem_of_app. right. by apply list_elem_of_singleton. }
  unfold compose_query. rewrite bool_decide_eq_true_2.
  - by rewrite (append_exprs_list _ _ l Hin).
  - destruct (expressions _); [by apply elem_of_nil in Hin|simpl; lia].
Qed.

(** A list of strings passed to [add_expression] is added entry by entry, and
    then once more as a whole. *)
Theorem add_list_of_strings (r : request) (ss : list string) :
  expressions (add_expression r (EList (map EStr ss))) =
    expressions r ++ map EStr ss ++ [EList (map EStr ss)].
Proof.
  unfold add_expression, set_expressions. simpl. rewrite app_assoc. f_equal.
  generalize (expressions r) as es. induction ss as [|x ss IH]; intros es; simpl.
  - by rewrite app_nil_r.
  - rewrite IH. by rewrite <-app_assoc.
Qed.

Lemma py_split_cons (c : ascii) (s : string) : exists h t, py_split c s = h :: t.
Proof.
  destruct s as [|x s]; simpl; [by eexists _, _|].
  case_bool_decide; [by eexists _, _|]. destruct (py_split c s); by eexists _, _.
Qed.

Lemma join_split_semicolons (s : string) :
  py_join (";" +:+ String "010"%char EmptyString) (py_split ";"%char s) = nl_after_semicolons s.
Proof.
  induction s as [|x s IH]; [reflexivity|]. simpl.
  destruct (py_split_cons ";"%char s) as (h & t & Ht). rewrite Ht in IH |- *.
  case_bool_decide as Hx.
  - subst x. unfold py_join in IH |- *. simpl. by rewrite <-IH.
  - unfold py_join in IH |- *. rewrite <-IH. destruct t; reflexivity.
Qed.

(** [print_query] prints the query [compose_query] builds with a line break
    after every [;], and fails exactly as [compose_query] does. *)
Theorem print_query_lines (r : request) :
  print_query r = (let? rq := compose_query r in pyret (nl_after_semicolons (snd rq))).
Proof.
  unfold print_query. destruct (compose_query r) as [e|rq]; [reflexivity|].
  simpl. by rewrite join_split_semicolons.
Qed.

Section RetryProps.
Context {D : Type} (urlopen : nat -> outcome D) (attempts : Z).

Lemma attempt_skip (d : nat) : forall i m,
  (forall j, i <= j < i + d ->
     (exists c, urlopen j = RaisedHTTPError c) /\ Z.of_nat j <> (attempts - 1)%Z) ->
  attempt_from urlopen attempts i (d + m) = attempt_from urlopen attempts (i + d) m.
Proof.
  induction d as [|d IH]; intros i m Hj.
  - by rewrite Nat.add_0_r.
  - simpl. destruct (Hj i ltac:(lia)) as [[c ->] Hne].
    rewrite bool_decide_eq_false_2 by exact Hne.
    rewrite IH; [f_equal; lia|]. intros j Hr. apply Hj. lia.
Qed.

Lemma attempt_from_bound : forall m i,
  Z.of_nat (i + m) = (attempts - 1)%Z -> attempt_from urlopen attempts i (S m) <> None.
Proof.
  induction m as [|m IH]; intros i Hi; simpl;
    destruct (urlopen i); try discriminate; case_bool_decide; try discriminate.
  - lia.
  - apply IH. lia.
Qed.

Lemma attempt_from_not_unbound : forall k i r,
  attempt_from urlopen attempts i k = Some r -> r <> inl PyUnboundLocalError.
Proof.
  induction k as [|k IH]; intros i r; simpl; [discriminate|].
  destruct (urlopen i); [by intros [= <-]| |by intros [= <-]].
  case_bool_decide; [by intros [= <-]|apply IH].
Qed.

End RetryProps.

(** The download raises [UnboundLocalError] (for [requ]) exactly when
    [attempts] is not positive: a positive number of attempts always ends in
    a response or in a raised exception. *)
Theorem unbound_iff_no_attempt {D} (urlopen : nat -> outcome D) (attempts : Z) :
  open_with_retry urlopen attempts = inl PyUnboundLocalError <-> (attempts <= 0)%Z.
Proof.
  unfold open_with_retry. split.
  - intros H. destruct (Z_le_gt_dec attempts 0) as [Hle|Hgt]; [exact Hle|exfalso].
    replace (Z.to_nat attempts) with (S (Z.to_nat attempts - 1)) in H by lia.
    destruct (attempt_from urlopen attempts 0 (S (Z.to_nat attempts - 1))) as [r|] eqn:E.
    + subst r. exact (attempt_from_not_unbound _ _ _ _ _ E eq_refl).
    + apply (attempt_from_bound urlopen attempts (Z.to_nat attempts - 1) 0); [lia|exact E].
  - intros Hle. by replace (Z.to_nat attempts) with 0 by lia.
Qed.

(** Retrying: when the attempts before attempt [k] all raised [HTTPError] and
    attempt [k] either did not, or is the last one, attempt [k] decides: its
    response is read, or its exception propagates; an exception other than
    [HTTPError] is never retried. *)
Theorem retry_decided_by {D} (urlopen : nat -> outcome D) (attempts : Z) (k : nat) :
  (Z.of_nat k < attempts)%Z ->
  (forall j, j < k -> exists c, urlopen j = RaisedHTTPError c) ->
  (forall c, urlopen k = RaisedHTTPError c -> Z.of_nat k = (attempts - 1)%Z) ->
  open_with_retry urlopen attempts =
    match urlopen k with
    | Opened d => inr d
    | RaisedHTTPError c => inl (PyHTTPError c)
    | RaisedOther c => inl (PyOtherError c)
    end.
Proof.
  intros Hk Hbefore Hlast. unfold open_with_retry.
  replace (Z.to_nat attempts) with (k + S (Z.to_nat attempts - k - 1)) by lia.
  rewrite (attempt_skip urlopen attempts k 0).
  - simpl. destruct (urlopen k) as [d|c|c] eqn:E; [reflexivity| |reflexivity].
    by rewrite bool_decide_eq_true_2 by (apply (Hlast c eq_refl)).
  - intros j Hj. split; [apply Hbefore; lia|lia].
Qed.


Lemma py_map_app_err {A B} (f : A -> pyresult B) (xs : list A) (y : A) (ys : list A)
    (zs : list B) (e : py_exn) :
  py_map f xs = inr zs -> f y = inl e -> py_map f (xs ++ y :: ys) = inl e.
Proof.
  revert zs. induction xs as [|x xs IH]; intros zs; simpl.
  - intros _ ->. reflexivity.
  - unfold pybind. destruct (f x); [discriminate|].
    destruct (py_map f xs) as [|zs'] eqn:E; [discriminate|].
    intros _ Hy. by rewrite (IH zs' eq_refl Hy).
Qed.

Lemma py_map_osm_nodes (ns : list (json * json)) : py_map osm_row (map node_obj ns) = inr ns.
Proof. induction ns as [|[la lo] ns IH]; [reflexivity|]. simpl. rewrite IH. reflexivity. Qed.

Lemma py_map_geo_features (cs : list (json * json)) : py_map geo_row (map feature_obj cs) = inr cs.
Proof. induction cs as [|[a b] cs IH]; [reflexivity|]. simpl. rewrite IH. reflexivity. Qed.





(** An element that is not a node and has no ["center"] makes
    [osmdict2points] raise [KeyError], after the rows before it converted. *)
Theorem osm_missing_center {O} (np_other : list (json * json) -> pyresult O)
    (kv : list (string * json)) (pre : list (json * json))
    (el : json) (rest : list json) (t : json) :
  assoc "elements" kv = Some (JList (map node_obj pre ++ el :: rest)) ->
  getitem el "type" = inr t -> is_str t "node" = false -> getitem el "center" = inl PyKeyError ->
  osmdict2points np_other (JObj kv) = inl PyKeyError.
Proof.
  intros H Ht Hn Hc.
  assert (Hrow : osm_row el = inl PyKeyError)
    by (unfold osm_row; rewrite Ht; simpl; rewrite Hn, Hc; reflexivity).
  unfold osmdict2points. cbn [getitem]. rewrite H. cbn [pybind pyret py_iter].
  by rewrite (py_map_app_err _ _ _ _ _ _ (py_map_osm_nodes pre) Hrow).
Qed.

(** A GeoJSON feature whose [coordinates] do not have exactly two entries
    makes [lon, lat = ...] raise [ValueError]. *)
Theorem geo_coordinates_arity {F O} (np_other : list (json * json) -> pyresult O)
    (df2points : F -> pyresult (list (Z * Z) + O))
    (kv : list (string * json)) (pre : list (json * json)) (cs : list json) (rest : list json) :
  assoc "elements" kv = Some (JList (map feature_obj pre ++ feature_with (JList cs) :: rest)) ->
  length cs <> 2 ->
  data2points np_other df2points (PyJsonValue (JObj kv)) = inl PyValueError.
Proof.
  intros H Hl.
  assert (Hrow : geo_row (feature_with (JList cs)) = inl PyValueError)
    by (destruct cs as [|a [|b [|c cs]]]; simpl in Hl; first [lia | reflexivity]).
  assert (Hmap : geodict2points np_other (JObj kv) = inl PyValueError).
  { unfold geodict2points. cbn [getitem]. rewrite H. cbn [pybind pyret py_iter].
    by rewrite (py_map_app_err _ _ _ _ _ _ (py_map_geo_features pre) Hrow). }
  rewrite <-Hmap. unfold data2points. cbn [getitem]. rewrite H. cbn [pybind pyret].
  destruct pre as [|[a b] pre]; reflexivity.
Qed.











(** ** Examples for the properties above *)

Lemma no_ignored_without_flag_witness :
  loop false (members_ways [MWay way_A; MWay way_B]) init_st = inr st_AB /\ ignored st_AB = [].
Proof.
  split; [reflexivity|].
  apply (no_ignored_without_flag [MWay way_A; MWay way_B]). reflexivity.
Defined.

Lemma vertices_permutation_witness :
  points st_AB ++ concat (exclaves st_AB) ++ ignored st_AB
    ≡ₚ concat (map segm (members_ways [MWay way_A; MOther 4; MWay way_B])).
Proof. apply (vertices_permutation false). reflexivity. Defined.

Lemma format_setters_detected_witness :
  exists r' q, compose_query (set_csv_format xml_request ["name"] true ";") = inr (r', q) /\
               query_format q = "csv".
Proof. apply (format_setters_detected xml_request ["node(1);out;"]); [reflexivity|done]. Defined.

Lemma retry_decided_by_witness : open_with_retry flaky_urlopen 5 = inr 7.
Proof.
  apply (retry_decided_by flaky_urlopen 5 2).
  - lia.
  - intros j Hj. exists 429. destruct j as [|[|j]]; [reflexivity|reflexivity|lia].
  - intros c Hc. discriminate Hc.
Defined.



Lemma osm_missing_center_witness :
  osmdict2points any_array (JObj [("elements", JList (map node_obj [(JNum 48, JNum 11)] ++
                                      [JObj [("type", JStr "way"); ("id", JNum 1)]]))])
    = inl PyKeyError.
Proof.
  apply (osm_missing_center any_array _ [(JNum 48, JNum 11)] (JObj [("type", JStr "way"); ("id", JNum 1)])
           [] (JStr "way")); reflexivity.
Defined.

Lemma geo_coordinates_arity_witness :
  data2points any_array no_frame
    (PyJsonValue (JObj [("elements", JList (map feature_obj [] ++
                          [feature_with (JList [JNum 11; JNum 48; JNum 500])]))]))
    = inl PyValueError.
Proof.
  apply (geo_coordinates_arity any_array no_frame _ [] [JNum 11; JNum 48; JNum 500] []);
    [reflexivity|simpl; lia].
Defined.



End Overpass.
